(** * Spoolman: the Bambu Lab MQTT integration (spoolman/integrations/bambu_mqtt.py)

    A shallow embedding of [BambuMQTTClient]: the per-record pipeline of
    [_process_ams_data], the decoder [_process_message] and the reconnect
    loop of [run], followed by the properties of the change filter, the
    weight arithmetic, the error containment and the backoff schedule.

    Python floats are IEEE binary64 numbers, modelled by Rocq's primitive
    floats; dictionaries keyed by slot are stdpp's [gmap string]. *)

From Stdlib Require Import ZArith List String Ascii Floats DecimalString DecimalZ DecimalPos Bool Lia.
From stdpp Require Import base option gmap strings.

Set Default Proof Using "Type".
Set Warnings "-register-all,-clear-no-such-hyp".
Local Open Scope Z_scope.

(** ** Python values

    What [json.loads] returns: [None], booleans, unbounded integers, floats
    (the decoder also accepts the literals NaN and Infinity), strings, lists
    and dictionaries with string keys, in document order. *)

Inductive json : Type :=
| JNull
| JBool (b : bool)
| JInt (z : Z)
| JFloat (f : float)
| JStr (s : string)
| JList (xs : list json)
| JDict (kvs : list (string * json)).

(** The exceptions the modelled code can meet. *)
Inductive exn : Type :=
| TypeError
| ValueError
| OverflowError
| AttributeError.

(** A computation either returns or raises. *)
Inductive res (A : Type) : Type :=
| Ret (a : A)
| Raise (e : exn).
Arguments Ret {A} a.
Arguments Raise {A} e.

(** [except (ValueError, TypeError)]. *)
Definition caught (e : exn) : bool :=
  match e with
  | ValueError | TypeError => true
  | OverflowError | AttributeError => false
  end.

(** [d.get(k)] / [d[k]] on a dictionary held in document order, each key
    looked up at its first entry. *)
Fixpoint dict_get (kvs : list (string * json)) (k : string) : option json :=
  match kvs with
  | [] => None
  | (k', v) :: rest => if String.eqb k k' then Some v else dict_get rest k
  end.

(** [d.get(k, default)]. *)
Definition dict_get_default (kvs : list (string * json)) (k : string) (default : json) : json :=
  match dict_get kvs k with
  | Some v => v
  | None => default
  end.

(** [d.get(k)]: a missing key and a stored [None] both read as [None]. *)
Definition dict_get_none (kvs : list (string * json)) (k : string) : option json :=
  match dict_get kvs k with
  | Some JNull => None
  | r => r
  end.

Definition is_str (k : string) (v : json) : bool :=
  match v with
  | JStr s => String.eqb k s
  | _ => false
  end.

Definition is_substring (k s : string) : bool :=
  match index 0 k s with
  | Some _ => true
  | None => false
  end.

(** [k in c] for a string [k]: key membership on a dictionary, element
    equality on a list, substring search on a string, [TypeError] on the
    values that are not containers. *)
Definition py_in (k : string) (c : json) : res bool :=
  match c with
  | JDict kvs => Ret (bool_decide (is_Some (dict_get kvs k)))
  | JList xs => Ret (existsb (is_str k) xs)
  | JStr s => Ret (is_substring k s)
  | JNull | JBool _ | JInt _ | JFloat _ => Raise TypeError
  end.

Fixpoint chars (s : string) : list json :=
  match s with
  | EmptyString => []
  | String c rest => JStr (String c EmptyString) :: chars rest
  end.

(** [for x in c]: the elements of a list, the keys of a dictionary, the
    characters of a string; the other values are not iterable. *)
Definition py_iter (c : json) : option (list json) :=
  match c with
  | JList xs => Some xs
  | JDict kvs => Some (map (fun kv => JStr (fst kv)) kvs)
  | JStr s => Some (chars s)
  | JNull | JBool _ | JInt _ | JFloat _ => None
  end.

(** Truth value of an object, as tested by [if x:] and [not x]. *)
Definition py_truthy (v : json) : bool :=
  match v with
  | JNull => false
  | JBool b => b
  | JInt z => negb (Z.eqb z 0)
  | JFloat f => negb (PrimFloat.eqb f 0%float)
  | JStr s => negb (String.eqb s "")
  | JList xs => match xs with [] => false | _ => true end
  | JDict kvs => match kvs with [] => false | _ => true end
  end.

(** [float(n)] for an integer: the nearest binary64 number, ties to even. *)
Definition float_of_Z (z : Z) : float :=
  SF2Prim (binary_normalize prec emax z 0 false).

(** ** Log records and store calls, in the order they happen *)

Inductive level : Type := INFO | WARNING | ERROR.

Inductive logmsg : Type :=
| InvalidRemain (tray_id : string) (value : json)
| NoTrayWeight (tray_id : string)
| InvalidTrayWeight (tray_id : string) (value : json)
| SlotRemaining (tray_id : string) (spool_id : Z) (remain_percent remaining_weight : float)
| UpdatedSpool (spool_id : Z) (remaining_weight : float)
| FailedUpdate (spool_id : Z)
| JSONDecodeFailed
| ErrorProcessing
| ConnectionError
| UnexpectedError.

Inductive event : Type :=
| Log (lvl : level) (msg : logmsg)
  (** [spool_db.update(db, spool_id, {"remaining_weight": w})], made for
      slot [tray_id]; [ok] tells whether the call returned or raised. *)
| SpoolUpdate (tray_id : string) (spool_id : Z) (remaining_weight : float) (ok : bool).

(** What [json.loads(message.payload.decode())] does with a payload. *)
Inductive loaded : Type :=
| Loaded (payload : json)
| JSONDecodeError
| DecodeRaised (e : exn).

(** ** The client and what it receives from outside

    [Env] gathers what the class is given: the slot mapping passed to the
    constructor, the inventory store behind [spool_db.update], the JSON
    decoder, and the two library conversions whose text format is not
    modelled ([str] of a float or a container, [float] of a string). *)

Class Env : Type := {
  (** [self.ams_mappings]: slot identifier to spool identifier. *)
  ams_mappings : gmap string Z;
  (** The state of the inventory store, and [spool_db.update] on it, which
      returns ([true]) or raises ([false]). *)
  db : Type;
  spool_update : Z -> float -> db -> bool * db;
  (** [json.loads(payload.decode())] on the bytes of a message. *)
  json_loads : list Byte.byte -> loaded;
  (** [str(v)] for a float, a list or a dictionary. *)
  str_other : json -> string;
  (** [float(s)] for a string; [None] is [ValueError]. *)
  float_of_str : string -> option float
}.

Section Client.

Context {E : Env}.

(** [str(v)]. *)
Definition py_str (v : json) : string :=
  match v with
  | JNull => "None"
  | JBool true => "True"
  | JBool false => "False"
  | JInt z => NilZero.string_of_int (Z.to_int z)
  | JStr s => s
  | JFloat _ | JList _ | JDict _ => str_other v
  end.

(** [float(v)]. An integer too large for a binary64 raises [OverflowError],
    which is neither [ValueError] nor [TypeError]. *)
Definition py_float (v : json) : res float :=
  match v with
  | JNull => Raise TypeError
  | JBool b => Ret (if b then 1%float else 0%float)
  | JInt z =>
      let f := float_of_Z z in
      if PrimFloat.is_infinity f then Raise OverflowError else Ret f
  | JFloat f => Ret f
  | JStr s =>
      match float_of_str s with
      | Some f => Ret f
      | None => Raise ValueError
      end
  | JList _ | JDict _ => Raise TypeError
  end.

(** The mutable part of the client seen by message processing:
    [self._last_remaining] and the store. *)
Record world : Type := World {
  last_remaining : gmap string float;
  store : db
}.

(** The result of running a piece of code from a world: how it ended, the
    world it left, and what it logged and sent to the store. *)
Record outcome (A : Type) : Type := Outcome {
  result : res A;
  final : world;
  emitted : list event
}.
Arguments Outcome {A} result final emitted.
Arguments result {A} o.
Arguments final {A} o.
Arguments emitted {A} o.

Definition M (A : Type) : Type := world -> outcome A.

Definition ret {A} (a : A) : M A := fun w => Outcome (Ret a) w [].

Definition raise {A} (e : exn) : M A := fun w => Outcome (Raise e) w [].

Definition bind {A B} (m : M A) (k : A -> M B) : M B := fun w =>
  let o := m w in
  match result o with
  | Ret a =>
      let o' := k a (final o) in
      Outcome (result o') (final o') (emitted o ++ emitted o')
  | Raise e => Outcome (Raise e) (final o) (emitted o)
  end.

Notation "m1 ;; m2" := (bind m1 (fun _ => m2))
  (at level 100, m2 at level 200, right associativity).

Definition emit (e : event) : M unit := fun w => Outcome (Ret tt) w [e].

(** [self._last_remaining[tray_id] = remain_percent]. *)
Definition set_last_remaining (tray_id : string) (remain_percent : float) : M unit :=
  fun w => Outcome (Ret tt) (World (<[tray_id := remain_percent]> (last_remaining w)) (store w)) [].

(** [for x in xs: body(x)]; an exception of the body leaves the loop. *)
Fixpoint for_each {A} (body : A -> M unit) (xs : list A) : M unit :=
  match xs with
  | [] => ret tt
  | x :: rest => body x ;; for_each body rest
  end.

(** [try: m except Exception: handler]. *)
Definition try_except {A} (m : M A) (handler : exn -> M A) : M A := fun w =>
  let o := m w in
  match result o with
  | Ret a => o
  | Raise e =>
      let o' := handler e (final o) in
      Outcome (result o') (final o') (emitted o ++ emitted o')
  end.

(** Lines 181-190: the store call inside its [try]; a raise of the store is
    logged and goes no further. *)
Definition update_spool (tray_id : string) (spool_id : Z) (remaining_weight : float) : M unit :=
  fun w =>
    let r := spool_update spool_id remaining_weight (store w) in
    Outcome (Ret tt) (World (last_remaining w) (snd r))
      [SpoolUpdate tray_id spool_id remaining_weight (fst r);
       if fst r then Log INFO (UpdatedSpool spool_id remaining_weight)
       else Log ERROR (FailedUpdate spool_id)].

(** Line 150: [last_remain is not None and abs(remain_percent - last_remain) < 0.5]. *)
Definition no_significant_change (last_remain : option float) (remain_percent : float) : bool :=
  match last_remain with
  | Some l => PrimFloat.ltb (PrimFloat.abs (PrimFloat.sub remain_percent l)) 0.5%float
  | None => false
  end.

(** Line 171: [(remain_percent / 100.0) * tray_weight]. *)
Definition remaining_weight_of (remain_percent tray_weight : float) : float :=
  PrimFloat.mul (PrimFloat.div remain_percent 100%float) tray_weight.

(** Lines 157-190, once the percentage has been accepted. *)
Definition dispatch_tray (kvs : list (string * json)) (tray_id : string) (spool_id : Z)
    (remain_percent : float) : M unit :=
  match dict_get_none kvs "tray_weight" with
  | None => emit (Log WARNING (NoTrayWeight tray_id))
  | Some wv =>
      match py_float wv with
      | Raise e =>
          if caught e then emit (Log WARNING (InvalidTrayWeight tray_id wv))
          else raise e
      | Ret tray_weight =>
          let remaining_weight := remaining_weight_of remain_percent tray_weight in
          emit (Log INFO (SlotRemaining tray_id spool_id remain_percent remaining_weight)) ;;
          update_spool tray_id spool_id remaining_weight
      end
  end.

(** Lines 148-190: the change filter, the baseline and what follows, for a
    mapped slot whose percentage is numeric. *)
Definition filter_tray (kvs : list (string * json)) (tray_id : string) (spool_id : Z)
    (remain_percent : float) : M unit :=
  fun w =>
    if no_significant_change (last_remaining w !! tray_id) remain_percent
    then ret tt w
    else (set_last_remaining tray_id remain_percent ;;
          dispatch_tray kvs tray_id spool_id remain_percent) w.

(** Line 127: [str(tray.get("id", ""))]. *)
Definition tray_id_of (kvs : list (string * json)) : string :=
  py_str (dict_get_default kvs "id" (JStr "")).

(** Lines 123-190: the body of the loop over the trays of one unit; each
    [continue] of the source is a [ret tt] here. *)
Definition process_tray (tray : json) : M unit :=
  match tray with
  | JDict kvs =>
      let tray_id := tray_id_of kvs in
      match ams_mappings !! tray_id with
      | None => ret tt
      | Some spool_id =>
          match dict_get_none kvs "remain" with
          | None => ret tt
          | Some rv =>
              match py_float rv with
              | Raise e =>
                  if caught e then emit (Log WARNING (InvalidRemain tray_id rv))
                  else raise e
              | Ret remain_percent => filter_tray kvs tray_id spool_id remain_percent
              end
          end
      end
  | _ => ret tt
  end.

(** Lines 117-122: one AMS unit. [ams_unit["tray"]] exists only on a
    dictionary; a list or a string that contains "tray" fails on the
    subscript, a value that is no container fails on [in]. *)
Definition process_ams_unit (ams_unit : json) : M unit :=
  match py_in "tray" ams_unit with
  | Raise e => raise e
  | Ret false => ret tt
  | Ret true =>
      match ams_unit with
      | JDict kvs =>
          match py_iter (dict_get_default kvs "tray" JNull) with
          | Some trays => for_each process_tray trays
          | None => raise TypeError
          end
      | _ => raise TypeError
      end
  end.

(** [_process_ams_data], lines 105-190. *)
Definition process_ams_data (ams_data : json) : M unit :=
  if negb (py_truthy ams_data) then ret tt
  else
    match py_iter ams_data with
    | Some units => for_each process_ams_unit units
    | None => raise TypeError
    end.

(** Lines 205-211: from the decoded payload to [ams_data]; [None] is the
    early [return] when the payload has no "print". *)
Definition ams_data_of (payload : json) : res (option json) :=
  match py_in "print" payload with
  | Raise e => Raise e
  | Ret false => Ret None
  | Ret true =>
      match payload with
      | JDict kvs =>
          match dict_get_default kvs "print" JNull with
          | JDict print_data =>
              match dict_get_default print_data "ams" (JDict []) with
              | JDict ams => Ret (Some (dict_get_default ams "ams" (JList [])))
              | _ => Raise AttributeError
              end
          | _ => Raise AttributeError
          end
      | _ => Raise TypeError
      end
  end.

(** Lines 204-213 on a decoded payload. *)
Definition process_payload (payload : json) : M unit :=
  match ams_data_of payload with
  | Raise e => raise e
  | Ret None => ret tt
  | Ret (Some ams_data) =>
      if py_truthy ams_data then process_ams_data ams_data else ret tt
  end.

(** [_process_message], lines 192-218. *)
Definition process_message (payload : list Byte.byte) : M unit :=
  match json_loads payload with
  | JSONDecodeError => emit (Log WARNING JSONDecodeFailed)
  | DecodeRaised _ => emit (Log ERROR ErrorProcessing)
  | Loaded payload =>
      try_except (process_payload payload) (fun _ => emit (Log ERROR ErrorProcessing))
  end.

(** ** The records of a message, in document order

    What the two nested loops visit when nothing raises: every element of
    every unit's tray list, the non-dictionaries included (they are skipped
    by the loop body), and the place where the traversal itself raises. *)

Inductive item : Type :=
| Tray (t : json)
| Abort (e : exn).

Definition process_item (it : item) : M unit :=
  match it with
  | Tray t => process_tray t
  | Abort e => raise e
  end.

Definition unit_items (ams_unit : json) : list item :=
  match py_in "tray" ams_unit with
  | Raise e => [Abort e]
  | Ret false => []
  | Ret true =>
      match ams_unit with
      | JDict kvs =>
          match py_iter (dict_get_default kvs "tray" JNull) with
          | Some trays => map Tray trays
          | None => [Abort TypeError]
          end
      | _ => [Abort TypeError]
      end
  end.

Definition data_items (ams_data : json) : list item :=
  if negb (py_truthy ams_data) then []
  else
    match py_iter ams_data with
    | Some units => concat (map unit_items units)
    | None => [Abort TypeError]
    end.

Definition payload_items (payload : json) : list item :=
  match ams_data_of payload with
  | Raise e => [Abort e]
  | Ret None => []
  | Ret (Some ams_data) => if py_truthy ams_data then data_items ams_data else []
  end.

Definition message_items (payload : list Byte.byte) : list item :=
  match json_loads payload with
  | Loaded payload => payload_items payload
  | JSONDecodeError | DecodeRaised _ => []
  end.

(** The record reports slot [s]. *)
Definition reports (s : string) (it : item) : bool :=
  match it with
  | Tray (JDict kvs) => String.eqb (tray_id_of kvs) s
  | _ => false
  end.

(** ** The reconnect loop of [run], lines 220-298

    [run] is suspended at four places: entering [aiomqtt.Client], the
    [subscribe] call, the wait for the next message, and [asyncio.sleep].
    The outside world moves it on by an [input]; [stop] may run at any of
    them. A message is processed between two suspensions of the loop, so a
    [stop] that arrives meanwhile is seen as arriving right after it. *)

Inductive pc : Type :=
| Connecting
| Subscribing
| Receiving
| Sleeping
| Stopped.

(** Which [except] clause of [run] takes a failure. *)
Inductive failure : Type :=
| MqttError
| OtherException.

Inductive input : Type :=
| Stop
| Connected
| ConnectFailed (f : failure)
| Subscribed
| SubscribeFailed (f : failure)
| Message (payload : list Byte.byte)
  (** a message arrived, and [db_session_factory()] raised *)
| SessionFailed (f : failure)
| StreamFailed (f : failure)
| StreamEnded
| SleepDone.

(** What [run] does that can be seen from outside. *)
Inductive action : Type :=
| Connect
| Subscribe
| Process (payload : list Byte.byte) (events : list event)
| Sleep (delay : Z)
| RunLog (lvl : level) (msg : logmsg).

Record client : Type := Client {
  running : bool;
  reconnect_delay : Z;
  at_pc : pc;
  state : world
}.

Definition max_reconnect_delay : Z := 300.

(** Line 247: [while self.running], then the connection attempt. *)
Definition loop_top (c : client) : client * list action :=
  if running c
  then (Client (running c) (reconnect_delay c) Connecting (state c), [Connect])
  else (Client (running c) (reconnect_delay c) Stopped (state c), []).

(** Lines 276-283 and 287-293: both handlers, up to the [sleep]. *)
Definition on_failure (f : failure) (c : client) : client * list action :=
  if negb (running c)
  then (Client (running c) (reconnect_delay c) Stopped (state c), [])
  else (Client (running c) (reconnect_delay c) Sleeping (state c),
        [RunLog ERROR (match f with MqttError => ConnectionError | OtherException => UnexpectedError end);
         Sleep (reconnect_delay c)]).

Definition step (c : client) (i : input) : client * list action :=
  match i, at_pc c with
  | Stop, _ => (Client false (reconnect_delay c) (at_pc c) (state c), [])
  | Connected, Connecting => (Client (running c) 5 Subscribing (state c), [Subscribe])
  | ConnectFailed f, Connecting => on_failure f c
  | Subscribed, Subscribing => (Client (running c) (reconnect_delay c) Receiving (state c), [])
  | SubscribeFailed f, Subscribing => on_failure f c
  | Message payload, Receiving =>
      if negb (running c) then loop_top c
      else
        let o := process_message payload (state c) in
        (Client (running c) (reconnect_delay c) Receiving (final o), [Process payload (emitted o)])
  | SessionFailed f, Receiving =>
      if negb (running c) then loop_top c else on_failure f c
  | StreamFailed f, Receiving => on_failure f c
  | StreamEnded, Receiving => loop_top c
  | SleepDone, Sleeping =>
      loop_top (Client (running c) (Z.min (reconnect_delay c * 2) max_reconnect_delay)
                  Sleeping (state c))
  | _, _ => (c, [])
  end.

(** The loop driven by a sequence of inputs. *)
Fixpoint steps (c : client) (inputs : list input) : client * list action :=
  match inputs with
  | [] => (c, [])
  | i :: rest =>
      let r := step c i in
      let r' := steps (fst r) rest in
      (fst r', snd r ++ snd r')
  end.

(** Lines 231-247: [run] from its call to the first connection attempt. *)
Definition run_start (w : world) : client * list action :=
  loop_top (Client true 5 Connecting w).

Definition run (w : world) (inputs : list input) : client * list action :=
  let r := run_start w in
  let r' := steps (fst r) inputs in
  (fst r', snd r ++ snd r').

(** A connection attempt that fails, and the wait that follows it. *)
Definition failed_attempt (f : failure) : list input := [ConnectFailed f; SleepDone].

(** The delay in force after [k] doublings. *)
Definition backoff (k : nat) : Z := Z.min (5 * 2 ^ Z.of_nat k) max_reconnect_delay.

(** The delays slept, in order. *)
Definition sleeps (acts : list action) : list Z :=
  omap (fun a => match a with Sleep d => Some d | _ => None end) acts.

(** The store calls made for slot [s], in order. *)
Definition is_dispatch (s : string) (e : event) : bool :=
  match e with
  | SpoolUpdate tray_id _ _ _ => String.eqb tray_id s
  | Log _ _ => false
  end.

Definition dispatches (s : string) (evs : list event) : list event :=
  List.filter (is_dispatch s) evs.

(** The arguments of the store calls, in order. *)
Definition store_calls (evs : list event) : list (Z * float) :=
  omap (fun e => match e with
                 | SpoolUpdate _ spool_id w _ => Some (spool_id, w)
                 | Log _ _ => None
                 end) evs.

(** ** The ways through the loop body *)

(** The ten ways through the loop body, each with the outcome it has. *)
Inductive tray_run (w : world) : json -> outcome unit -> Prop :=
| run_not_dict t :
    (forall kvs, t <> JDict kvs) ->
    tray_run w t (Outcome (Ret tt) w [])
| run_unmapped kvs :
    ams_mappings !! tray_id_of kvs = None ->
    tray_run w (JDict kvs) (Outcome (Ret tt) w [])
| run_no_remain kvs spool_id :
    ams_mappings !! tray_id_of kvs = Some spool_id ->
    dict_get_none kvs "remain" = None ->
    tray_run w (JDict kvs) (Outcome (Ret tt) w [])
| run_bad_remain kvs spool_id rv e :
    ams_mappings !! tray_id_of kvs = Some spool_id ->
    dict_get_none kvs "remain" = Some rv ->
    py_float rv = Raise e -> caught e = true ->
    tray_run w (JDict kvs)
      (Outcome (Ret tt) w [Log WARNING (InvalidRemain (tray_id_of kvs) rv)])
| run_raise_remain kvs spool_id rv e :
    ams_mappings !! tray_id_of kvs = Some spool_id ->
    dict_get_none kvs "remain" = Some rv ->
    py_float rv = Raise e -> caught e = false ->
    tray_run w (JDict kvs) (Outcome (Raise e) w [])
| run_suppressed kvs spool_id rv p :
    ams_mappings !! tray_id_of kvs = Some spool_id ->
    dict_get_none kvs "remain" = Some rv ->
    py_float rv = Ret p ->
    no_significant_change (last_remaining w !! tray_id_of kvs) p = true ->
    tray_run w (JDict kvs) (Outcome (Ret tt) w [])
| run_no_weight kvs spool_id rv p :
    ams_mappings !! tray_id_of kvs = Some spool_id ->
    dict_get_none kvs "remain" = Some rv ->
    py_float rv = Ret p ->
    no_significant_change (last_remaining w !! tray_id_of kvs) p = false ->
    dict_get_none kvs "tray_weight" = None ->
    tray_run w (JDict kvs)
      (Outcome (Ret tt) (World (<[tray_id_of kvs := p]> (last_remaining w)) (store w))
         [Log WARNING (NoTrayWeight (tray_id_of kvs))])
| run_bad_weight kvs spool_id rv p wv e :
    ams_mappings !! tray_id_of kvs = Some spool_id ->
    dict_get_none kvs "remain" = Some rv ->
    py_float rv = Ret p ->
    no_significant_change (last_remaining w !! tray_id_of kvs) p = false ->
    dict_get_none kvs "tray_weight" = Some wv ->
    py_float wv = Raise e -> caught e = true ->
    tray_run w (JDict kvs)
      (Outcome (Ret tt) (World (<[tray_id_of kvs := p]> (last_remaining w)) (store w))
         [Log WARNING (InvalidTrayWeight (tray_id_of kvs) wv)])
| run_raise_weight kvs spool_id rv p wv e :
    ams_mappings !! tray_id_of kvs = Some spool_id ->
    dict_get_none kvs "remain" = Some rv ->
    py_float rv = Ret p ->
    no_significant_change (last_remaining w !! tray_id_of kvs) p = false ->
    dict_get_none kvs "tray_weight" = Some wv ->
    py_float wv = Raise e -> caught e = false ->
    tray_run w (JDict kvs)
      (Outcome (Raise e) (World (<[tray_id_of kvs := p]> (last_remaining w)) (store w)) [])
| run_dispatch kvs spool_id rv p wv tw :
    ams_mappings !! tray_id_of kvs = Some spool_id ->
    dict_get_none kvs "remain" = Some rv ->
    py_float rv = Ret p ->
    no_significant_change (last_remaining w !! tray_id_of kvs) p = false ->
    dict_get_none kvs "tray_weight" = Some wv ->
    py_float wv = Ret tw ->
    let rw := remaining_weight_of p tw in
    let r := spool_update spool_id rw (store w) in
    tray_run w (JDict kvs)
      (Outcome (Ret tt) (World (<[tray_id_of kvs := p]> (last_remaining w)) (snd r))
         [Log INFO (SlotRemaining (tray_id_of kvs) spool_id p rw);
          SpoolUpdate (tray_id_of kvs) spool_id rw (fst r);
          if fst r then Log INFO (UpdatedSpool spool_id rw)
          else Log ERROR (FailedUpdate spool_id)]).

(** Nothing is dispatched for [s] and its baseline is left as it was. *)
Definition quiet (s : string) (w : world) (o : outcome unit) : Prop :=
  dispatches s (emitted o) = []
  /\ last_remaining (final o) !! s = last_remaining w !! s.


(** ** The rest of the class

    The constructor, the subscription topic and [create_and_run_client],
    and what the statements about whole runs are written with. *)

(** Lines 76-80: a new client has no baseline; it works on the store it is
    given sessions of. *)
Definition init_world (d : db) : world := World ∅ d.

(** Line 237: [f"device/{self.device_serial}/report"]. *)
Definition topic (device_serial : string) : string :=
  ("device/" ++ device_serial ++ "/report")%string.

(** Lines 337-350: the client is built and run at once. *)
Definition create_and_run_client (d : db) (inputs : list input) : client * list action :=
  run (init_world d) inputs.

(** [isinstance(tray, dict)]. *)
Definition is_dict (v : json) : bool :=
  match v with
  | JDict _ => true
  | _ => false
  end.

(** The inputs that enter one of the two [except] clauses of [run]. *)
Definition is_failure (i : input) : bool :=
  match i with
  | ConnectFailed _ | SubscribeFailed _ | SessionFailed _ | StreamFailed _ => true
  | _ => false
  end.

Definition is_message (i : input) : bool :=
  match i with
  | Message _ => true
  | _ => false
  end.

Definition is_stop (i : input) : bool :=
  match i with
  | Stop => true
  | _ => false
  end.

(** The log and store calls of the messages processed, in order. *)
Definition processed (acts : list action) : list event :=
  concat (omap (fun a => match a with Process _ evs => Some evs | _ => None end) acts).

(** The values the delay can take. *)
Definition delays : list Z := [5; 10; 20; 40; 80; 160; 300].

(** A record of slot [s] whose percentage is within 0.5 of [l]. *)
Definition within_half (s : string) (l : float) (t : json) : Prop :=
  exists kvs rv p,
    t = JDict kvs /\ tray_id_of kvs = s /\
    dict_get_none kvs "remain" = Some rv /\ py_float rv = Ret p /\
    PrimFloat.ltb (abs (PrimFloat.sub p l)) 0.5 = true.





End Client.

Arguments Outcome {E A} result final emitted.
Arguments result {E A} o.
Arguments final {E A} o.
Arguments emitted {E A} o.

(** ** A concrete environment

    Used to run the model on documents: a store that knows the spools it
    holds and raises on any other (not found), a decoder that knows the
    documents listed in a table, and [float] of a string restricted to
    unsigned decimal integers ("1000"), which is how the printer sends
    [tray_weight]. [str] of a float or a container is not exercised. *)

Definition demo_update (spool_id : Z) (w : float) (held : list Z) : bool * list Z :=
  (bool_decide (spool_id ∈ held), held).

Definition demo_float_of_str (s : string) : option float :=
  match NilZero.uint_of_string s with
  | Some u => Some (float_of_Z (Z.of_uint u))
  | None => None
  end.

Fixpoint demo_loads (table : list (string * json)) (payload : list Byte.byte) : loaded :=
  match table with
  | [] => JSONDecodeError
  | (text, v) :: rest =>
      if String.eqb text (string_of_list_byte payload) then Loaded v
      else demo_loads rest payload
  end.

Definition demo_env (mappings : gmap string Z) (table : list (string * json)) : Env := {|
  ams_mappings := mappings;
  db := list Z;
  spool_update := demo_update;
  json_loads := demo_loads table;
  str_other := fun _ => "<object>"%string;
  float_of_str := demo_float_of_str
|}.

(** Slots "0" and "1" feed spools 1 and 2; the store holds spool 1 only. *)
Definition demo_mappings : gmap string Z := {[ "0"%string := 1; "1"%string := 2 ]}.

Definition tray_fields (id : json) (remain tray_weight : json) : list (string * json) :=
  [("id"%string, id); ("remain"%string, remain); ("tray_weight"%string, tray_weight)].

Definition tray (id : json) (remain tray_weight : json) : json :=
  JDict (tray_fields id remain tray_weight).

Definition report (units : list (list json)) : json :=
  JDict [("print"%string,
          JDict [("ams"%string,
                  JDict [("ams"%string,
                          JList (map (fun trays => JDict [("tray"%string, JList trays)]) units))])])].

(** The payloads the demo decoder knows, by name, and what they decode to. *)
Definition demo_table : list (string * json) :=
  [("slot 0 at 60 percent of 1000"%string,
    report [[tray (JStr "0") (JInt 60) (JStr "1000")]]);
   ("slot 0 in two units, at 80 and at 30"%string,
    report [[tray (JStr "0") (JInt 80) (JInt 1000)]; [tray (JStr "0") (JInt 30) (JInt 1000)]]);
   ("slot 3, then slot 0"%string,
    report [[tray (JStr "3") (JInt 50) (JInt 1000); tray (JStr "0") (JInt 60) (JInt 1000)]]);
   ("slot 1, then slot 0"%string,
    report [[tray (JStr "1") (JInt 40) (JInt 1000); tray (JStr "0") (JInt 60) (JInt 1000)]])].

Definition demo : Env := demo_env demo_mappings demo_table.

Definition demo_world (baseline : gmap string float) : @world demo :=
  @World demo baseline [1].


(** Payloads that carry no usable report. *)
Definition quiet_table : list (string * json) :=
  [("no print entry"%string, JDict [("info"%string, JStr "x")]);
   ("print without ams"%string,
    JDict [("print"%string, JDict [("command"%string, JStr "push_status")])]);
   ("print is a string"%string, JDict [("print"%string, JStr "x")])].

Definition demo_quiet : Env := demo_env demo_mappings quiet_table.

(** * Properties *)

(** ** Binary64 comparisons

    The order of floats through their specification ([SpecFloat]): a
    comparison with NaN is always false, which is what separates
    "not below 0.5" from "at least 0.5". *)

Lemma SFcompare_swap (x y : spec_float) :
  SFcompare y x = option_map CompOpp (SFcompare x y).
Proof.
  destruct x as [sx|sx| |sx mx ex], y as [sy|sy| |sy my ey]; simpl; try done;
    try (by destruct sx); try (by destruct sy); try (by destruct sx, sy).
  destruct sx, sy; simpl; try done;
    rewrite (Z.compare_antisym ey ex); destruct (ey ?= ex); simpl; try done;
    rewrite (Pos.compare_cont_antisym mx my Eq); simpl;
    by destruct (Pos.compare_cont Eq mx my).
Qed.

Lemma SFcompare_refl (x : spec_float) :
  SFcompare x x = match x with S754_nan => None | _ => Some Eq end.
Proof.
  destruct x as [sx|sx| |sx mx ex]; simpl; try done; try (by destruct sx).
  rewrite Z.compare_refl. destruct sx; rewrite Pos.compare_cont_refl; done.
Qed.

Lemma is_nan_spec (x : float) :
  is_nan x = match Prim2SF x with S754_nan => true | _ => false end.
Proof.
  unfold is_nan. rewrite FloatAxioms.eqb_spec. unfold SFeqb. rewrite SFcompare_refl.
  by destruct (Prim2SF x).
Qed.

Lemma is_nan_abs (x : float) : is_nan (abs x) = is_nan x.
Proof. rewrite !is_nan_spec, abs_spec. by destruct (Prim2SF x). Qed.

Lemma is_finite_spec (x : float) :
  is_finite x
  = match Prim2SF x with S754_nan | S754_infinity _ => false | _ => true end.
Proof.
  unfold is_finite, is_infinity.
  rewrite is_nan_spec, FloatAxioms.eqb_spec, abs_spec.
  by destruct (Prim2SF x) as [s|s| |s m e].
Qed.

(** Not below [c] is: at least [c], or not comparable at all. *)
Lemma not_ltb_leb (x c : float) :
  is_nan c = false ->
  negb (PrimFloat.ltb x c) = PrimFloat.leb c x || is_nan x.
Proof.
  rewrite !is_nan_spec, FloatAxioms.ltb_spec, FloatAxioms.leb_spec.
  unfold SFltb, SFleb.
  rewrite (SFcompare_swap (Prim2SF x) (Prim2SF c)).
  destruct (Prim2SF x) eqn:Hx, (Prim2SF c) eqn:Hc; try done;
    destruct (SFcompare _ _) as [[]|] eqn:Hcmp; simpl in *; done.
Qed.

(** A finite number is at distance 0 from itself. *)
Lemma finite_self_sub (p : float) :
  is_finite p = true -> PrimFloat.ltb (abs (PrimFloat.sub p p)) 0.5 = true.
Proof.
  rewrite is_finite_spec, FloatAxioms.ltb_spec, abs_spec, sub_spec.
  destruct (Prim2SF p) as [s|s| |s m e]; try done.
  - intros _. by destruct s.
  - intros _. unfold SF64sub, SFsub. by rewrite Z.sub_diag.
Qed.

Section Properties.

Context {E : Env}.

(** *** The per-record pipeline, case by case *)

Lemma process_tray_run (t : json) (w : world) : tray_run w t (process_tray t w).
Proof.
  destruct t as [| | | | |xs|kvs]; try (by apply run_not_dict).
  unfold process_tray.
  destruct (ams_mappings !! tray_id_of kvs) as [spool_id|] eqn:Hmap;
    [|by apply run_unmapped].
  destruct (dict_get_none kvs "remain") as [rv|] eqn:Hrem;
    [|by eapply run_no_remain].
  destruct (py_float rv) as [p|e] eqn:Hp.
  2:{ destruct (caught e) eqn:Hc; [by eapply run_bad_remain|by eapply run_raise_remain]. }
  unfold filter_tray.
  destruct (no_significant_change (last_remaining w !! tray_id_of kvs) p) eqn:Hchg;
    [by eapply run_suppressed|].
  unfold bind, set_last_remaining, dispatch_tray; simpl.
  destruct (dict_get_none kvs "tray_weight") as [wv|] eqn:Hw;
    [|by eapply run_no_weight].
  destruct (py_float wv) as [tw|e] eqn:Htw.
  2:{ destruct (caught e) eqn:Hc; simpl;
      [by eapply run_bad_weight|by eapply run_raise_weight]. }
  simpl. by eapply run_dispatch.
Qed.

Ltac run_cases t w :=
  let H := fresh "Hrun" in
  let o := fresh "o" in
  let Ho := fresh "Ho" in
  pose proof (process_tray_run t w) as H;
  remember (process_tray t w) as o eqn:Ho in *; clear Ho;
  inversion H; subst; clear H;
  simplify_eq;
  repeat match goal with
         | H1 : ?a = ?b, H2 : ?a = ?c |- _ =>
             first [ by (exfalso; congruence)
                   | assert (b = c) by congruence; clear H2; simplify_eq ]
         end.

Ltac tray_cases kvs w :=
  run_cases (JDict kvs) w;
  try match goal with
      | Hno : forall k, JDict kvs <> JDict k |- _ => by destruct (Hno kvs)
      end.

(** *** The loops as one pass over the records *)

Lemma for_each_app {A} (body : A -> M unit) (xs ys : list A) (w : world) :
  for_each body (xs ++ ys) w
  = bind (for_each body xs) (fun _ => for_each body ys) w.
Proof.
  revert w. induction xs as [|x xs IH]; intros w; simpl.
  - unfold bind, ret; simpl. by destruct (for_each body ys w).
  - unfold bind.
    destruct (body x w) as [[[]|e] w1 ev1]; simpl; [|done].
    rewrite IH. unfold bind.
    destruct (for_each body xs w1) as [[[]|e] w2 ev2]; simpl; [|done].
    by rewrite app_assoc.
Qed.

Lemma for_each_trays (trays : list json) (w : world) :
  for_each process_tray trays w = for_each process_item (map Tray trays) w.
Proof.
  revert w. induction trays as [|t trays IH]; intros w; simpl; [done|].
  unfold bind. destruct (process_tray t w) as [[[]|e] w1 ev1]; simpl; [|done].
  by rewrite IH.
Qed.

Lemma process_ams_unit_items (ams_unit : json) (w : world) :
  process_ams_unit ams_unit w = for_each process_item (unit_items ams_unit) w.
Proof.
  unfold process_ams_unit, unit_items.
  destruct (py_in "tray" ams_unit) as [[]|e]; try done.
  destruct ams_unit; try done.
  destruct (py_iter _); [apply for_each_trays|done].
Qed.

Lemma for_each_units (units : list json) (w : world) :
  for_each process_ams_unit units w
  = for_each process_item (concat (map unit_items units)) w.
Proof.
  revert w. induction units as [|u units IH]; intros w; simpl; [done|].
  rewrite for_each_app. unfold bind. rewrite process_ams_unit_items.
  destruct (for_each process_item (unit_items u) w) as [[[]|e] w1 ev1]; simpl; [|done].
  by rewrite IH.
Qed.

Lemma process_ams_data_items (ams_data : json) (w : world) :
  process_ams_data ams_data w = for_each process_item (data_items ams_data) w.
Proof.
  unfold process_ams_data, data_items.
  destruct (negb (py_truthy ams_data)); [done|].
  destruct (py_iter ams_data); [apply for_each_units|done].
Qed.

Lemma process_payload_items (payload : json) (w : world) :
  process_payload payload w = for_each process_item (payload_items payload) w.
Proof.
  unfold process_payload, payload_items.
  destruct (ams_data_of payload) as [[d|]|e]; try done.
  destruct (py_truthy d); [apply process_ams_data_items|done].
Qed.

(** [_process_message] is one pass over the records of the message, with
    whatever the pass raises logged and dropped. *)
Lemma process_message_items (payload : list Byte.byte) (w : world) :
  process_message payload w
  = match json_loads payload with
    | JSONDecodeError => emit (Log WARNING JSONDecodeFailed) w
    | DecodeRaised _ => emit (Log ERROR ErrorProcessing) w
    | Loaded _ =>
        try_except (for_each process_item (message_items payload))
          (fun _ => emit (Log ERROR ErrorProcessing)) w
    end.
Proof.
  unfold process_message, message_items.
  destruct (json_loads payload) as [j| |e]; try done.
  unfold try_except. by rewrite process_payload_items.
Qed.

(** *** What a pass does to one slot *)

Lemma dispatches_app (s : string) (xs ys : list event) :
  dispatches s (xs ++ ys) = dispatches s xs ++ dispatches s ys.
Proof. apply List.filter_app. Qed.

Lemma store_calls_app (xs ys : list event) :
  store_calls (xs ++ ys) = store_calls xs ++ store_calls ys.
Proof. apply omap_app. Qed.

(** A record of another slot, or of a slot that is not mapped, is quiet
    for [s]. *)
Lemma item_quiet (s : string) (it : item) (w : world) :
  reports s it = false \/ ams_mappings !! s = None ->
  quiet s w (process_item it w).
Proof.
  intros Hs. destruct it as [t|e]; [|done]. simpl.
  run_cases t w; try done.
  all: assert (tray_id_of kvs <> s) as Hne
    by (destruct Hs as [Hs|Hs]; [simpl in Hs; by destruct (String.eqb_spec (tray_id_of kvs) s)
                                |congruence]).
  all: split; simpl; [|by rewrite lookup_insert_ne].
  all: unfold dispatches; simpl; try done.
  destruct (String.eqb_spec (tray_id_of kvs) s); [done|]. by destruct (fst r).
Qed.

Lemma items_quiet (s : string) (items : list item) :
  (forall it, In it items -> reports s it = false \/ ams_mappings !! s = None) ->
  forall w, quiet s w (for_each process_item items w).
Proof.
  induction items as [|it items IH]; intros Hall w; [done|].
  simpl. unfold bind.
  destruct (item_quiet s it w) as [Hd Hl]; [apply Hall; by left|].
  destruct (process_item it w) as [[[]|e] w1 ev1]; simpl in *; [|done].
  destruct (IH (fun it' Hin => Hall it' (or_intror Hin)) w1) as [Hd' Hl'].
  split; simpl.
  - by rewrite dispatches_app, Hd, Hd'.
  - by rewrite Hl', Hl.
Qed.

(** The keys of the tracker grow by keys of the slot mapping only. *)
Lemma item_tracker_dom (it : item) (w : world) :
  dom (last_remaining (final (process_item it w)))
  ⊆ dom (last_remaining w) ∪ dom ams_mappings.
Proof.
  destruct it as [t|e]; [|apply union_subseteq_l]. simpl.
  run_cases t w; simpl; try apply union_subseteq_l.
  all: rewrite dom_insert_L;
    match goal with H : ams_mappings !! _ = Some _ |- _ => apply elem_of_dom_2 in H end;
    set_solver.
Qed.

Lemma items_tracker_dom (items : list item) (w : world) :
  dom (last_remaining (final (for_each process_item items w)))
  ⊆ dom (last_remaining w) ∪ dom ams_mappings.
Proof.
  revert w. induction items as [|it items IH]; intros w; [set_solver|].
  simpl. unfold bind.
  pose proof (item_tracker_dom it w) as Hit.
  destruct (process_item it w) as [[[]|e] w1 ev1]; simpl in *; [|done].
  specialize (IH w1). set_solver.
Qed.

(** What [_process_message] adds to the pass over the records: it always
    returns, and its own log records are no store calls. *)
Lemma process_message_pass (payload : list Byte.byte) (w : world) :
  let o := for_each process_item (message_items payload) w in
  result (process_message payload w) = Ret tt
  /\ final (process_message payload w) = final o
  /\ store_calls (emitted (process_message payload w)) = store_calls (emitted o)
  /\ forall s, dispatches s (emitted (process_message payload w))
               = dispatches s (emitted o).
Proof.
  rewrite process_message_items. unfold message_items.
  destruct (json_loads payload) as [j| |e]; simpl; try done.
  unfold try_except.
  destruct (for_each process_item (payload_items j) w) as [[[]|e] w1 ev1]; simpl; [done|].
  split; [done|]. split; [done|].
  split; [|intros s]; by rewrite ?store_calls_app, ?dispatches_app, app_nil_r.
Qed.

(** *** The change filter *)

(** The filter of line 150 in terms of the order on floats. *)
Lemma accepted_iff (last : option float) (p : float) :
  no_significant_change last p = false <->
  match last with
  | None => True
  | Some l => PrimFloat.leb 0.5 (abs (PrimFloat.sub p l)) = true
              \/ is_nan (PrimFloat.sub p l) = true
  end.
Proof.
  destruct last as [l|]; simpl; [|done].
  rewrite <- is_nan_abs, <- orb_true_iff, <- not_ltb_leb by done.
  by destruct (PrimFloat.ltb _ _).
Qed.

Lemma dispatch_cases (kvs : list (string * json)) (w : world) (s : string) :
  dispatches s (emitted (process_tray (JDict kvs) w)) <> [] <->
  tray_id_of kvs = s /\ is_Some (ams_mappings !! s) /\
  exists rv p wv tw,
    dict_get_none kvs "remain" = Some rv /\ py_float rv = Ret p /\
    dict_get_none kvs "tray_weight" = Some wv /\ py_float wv = Ret tw /\
    no_significant_change (last_remaining w !! s) p = false.
Proof.
  split.
  - tray_cases kvs w; try done.
    unfold dispatches; cbn [emitted List.filter is_dispatch].
    destruct (String.eqb_spec (tray_id_of kvs) s) as [<-|Hne].
    + intros _. split; [done|]. split; [by eexists|]. by exists rv, p, wv, tw.
    + by destruct (fst r).
  - intros (<- & [spool_id Hmap] & rv & p & wv & tw & Hr & Hp & Hw & Htw & Hchg).
    tray_cases kvs w.
    unfold dispatches; cbn [emitted List.filter is_dispatch].
    by rewrite String.eqb_refl.
Qed.


(** C1 (as amended). For a tray record that the loop processes, from any
    state of the tracker: an update is dispatched for slot [s] if and only
    if the record's identifier is [s], [s] is a key of the slot mapping, the
    record carries a numeric remaining percentage and a numeric total
    weight, and either no percentage was accepted for [s] before, or the
    distance between the new percentage and the last accepted one is at
    least 0.5, or that distance is not a number (NaN is never below 0.5).
    Suppression needs a distance strictly below 0.5. *)
Theorem dispatch_iff_accepted (kvs : list (string * json)) (w : world) (s : string) :
  dispatches s (emitted (process_tray (JDict kvs) w)) <> [] <->
  tray_id_of kvs = s /\ is_Some (ams_mappings !! s) /\
  exists rv p wv tw,
    dict_get_none kvs "remain" = Some rv /\ py_float rv = Ret p /\
    dict_get_none kvs "tray_weight" = Some wv /\ py_float wv = Ret tw /\
    match last_remaining w !! s with
    | None => True
    | Some l => PrimFloat.leb 0.5 (abs (PrimFloat.sub p l)) = true
                \/ is_nan (PrimFloat.sub p l) = true
    end.
Proof.
  rewrite dispatch_cases.
  split; intros (Hid & Hmap & rv & p & wv & tw & Hr & Hp & Hw & Htw & Hchg);
    (split; [done|]); (split; [done|]); exists rv, p, wv, tw;
    repeat (split; [done|]); by apply accepted_iff.
Qed.

(** A distance of exactly 0.5 is not suppressed; a smaller one is. *)
Example boundary_half :
  no_significant_change (Some 50%float) 50.5%float = false
  /\ no_significant_change (Some 50%float) 49.5%float = false
  /\ no_significant_change (Some 50%float) 50.25%float = true.
Proof. by vm_compute. Qed.

(** C2 (as amended). A mapped record whose remaining percentage is present
    but on which [float] raises [ValueError] or [TypeError] is logged at
    warning level with its value and has no other effect: nothing is
    dispatched, the loop goes on, and the tracker is left as it was (the
    baseline of the slot is not advanced). *)
Theorem invalid_remain_only_warns (kvs : list (string * json)) (w : world)
    (spool_id : Z) (rv : json) (e : exn) :
  ams_mappings !! tray_id_of kvs = Some spool_id ->
  dict_get_none kvs "remain" = Some rv ->
  py_float rv = Raise e -> caught e = true ->
  process_tray (JDict kvs) w
  = Outcome (Ret tt) w [Log WARNING (InvalidRemain (tray_id_of kvs) rv)].
Proof.
  intros Hmap Hr He Hc. by tray_cases kvs w.
Qed.

(** *** The weight *)

(** C9. When a record resolves, the store is called once, for the mapped
    spool, with exactly [(remain_percent / 100.0) * tray_weight] in binary64
    arithmetic, whatever the two numbers are; 60 percent of 1000 is 600.0,
    150 percent of 1000 is 1500.0 and -10 percent is -100.0. *)
Theorem weight_is_exact (kvs : list (string * json)) (w : world)
    (spool_id : Z) (rv wv : json) (p tw : float) :
  ams_mappings !! tray_id_of kvs = Some spool_id ->
  dict_get_none kvs "remain" = Some rv -> py_float rv = Ret p ->
  no_significant_change (last_remaining w !! tray_id_of kvs) p = false ->
  dict_get_none kvs "tray_weight" = Some wv -> py_float wv = Ret tw ->
  store_calls (emitted (process_tray (JDict kvs) w))
  = [(spool_id, PrimFloat.mul (PrimFloat.div p 100) tw)]
  /\ remaining_weight_of 60 1000 = 600%float
  /\ remaining_weight_of 150 1000 = 1500%float
  /\ remaining_weight_of (-10) 1000 = (-100)%float.
Proof.
  intros Hmap Hr Hp Hchg Hw Htw. split; [|by vm_compute].
  tray_cases kvs w. cbn [emitted]. subst r. simpl.
  by destruct (fst (spool_update spool_id rw (store w))).
Qed.

(** *** The slot identifier *)


Lemma int_of_string_of_int (z : Z) :
  NilZero.int_of_string (NilZero.string_of_int (Z.to_int z)) = Some (Z.to_int z).
Proof.
  apply NilZero.isi; destruct z; simpl; try done;
    intros Hnil; injection Hnil as Hnil;
    by apply DecimalPos.Unsigned.to_uint_nonnil in Hnil.
Qed.


(** *** Records of unmapped slots *)

(** C8. A record whose identifier is not a key of the slot mapping has no
    effect at all; for such an identifier no message dispatches anything or
    touches a baseline; and processing a message adds to the keys of the
    tracker only keys of the slot mapping, so "every tracked slot is
    mapped" is preserved by every message. *)
Theorem unmapped_slot_is_ignored (s : string) (payload : list Byte.byte) (w : world) :
  ams_mappings !! s = None ->
  (forall kvs, tray_id_of kvs = s ->
     process_tray (JDict kvs) w = Outcome (Ret tt) w [])
  /\ dispatches s (emitted (process_message payload w)) = []
  /\ last_remaining (final (process_message payload w)) !! s = last_remaining w !! s
  /\ dom (last_remaining (final (process_message payload w)))
     ⊆ dom (last_remaining w) ∪ dom ams_mappings
  /\ (dom (last_remaining w) ⊆ dom ams_mappings ->
      dom (last_remaining (final (process_message payload w))) ⊆ dom ams_mappings).
Proof.
  intros Hs.
  destruct (process_message_pass payload w) as (_ & Hf & _ & Hd).
  destruct (items_quiet s (message_items payload) (fun _ _ => or_intror Hs) w)
    as [Hq1 Hq2].
  pose proof (items_tracker_dom (message_items payload) w) as Hdom.
  split; [|rewrite Hd, Hf; repeat split; try done; set_solver].
  intros kvs <-. by tray_cases kvs w.
Qed.

(** *** Payloads that do not decode *)

(** C5. A payload that [json.loads] rejects produces no store call and
    leaves the world untouched; [_process_message] returns normally after
    one log record, and the receive loop stays where it was, running, with
    the same delay and the same state. *)
Theorem malformed_payload_is_discarded (payload : list Byte.byte) (w : world) :
  (forall j, json_loads payload <> Loaded j) ->
  result (process_message payload w) = Ret tt
  /\ final (process_message payload w) = w
  /\ store_calls (emitted (process_message payload w)) = []
  /\ (emitted (process_message payload w) = [Log WARNING JSONDecodeFailed]
      \/ emitted (process_message payload w) = [Log ERROR ErrorProcessing])
  /\ forall c, running c = true -> at_pc c = Receiving -> state c = w ->
       step c (Message payload)
       = (c, [Process payload (emitted (process_message payload w))]).
Proof.
  intros Hbad. unfold process_message.
  destruct (json_loads payload) as [j| |e] eqn:Hl; [by destruct (Hbad j)| |].
  all: repeat (split; [by auto|]).
  all: intros [r d pc0 st] Hr Hpc Hst; simpl in *; subst.
  all: unfold step, process_message; simpl; by rewrite Hl.
Qed.

(** *** Failures of the store *)

(** Whatever the store answers, a record leaves the same result, the same
    tracker and the same calls. *)
Lemma item_store_independent (it : item) (w w' : world) :
  last_remaining w = last_remaining w' ->
  result (process_item it w) = result (process_item it w')
  /\ last_remaining (final (process_item it w))
     = last_remaining (final (process_item it w'))
  /\ store_calls (emitted (process_item it w))
     = store_calls (emitted (process_item it w')).
Proof.
  destruct w as [lr d], w' as [lr' d']; simpl. intros <-.
  destruct it as [t|e]; [|done]. simpl.
  destruct t as [| | | | | |kvs]; try done.
  tray_cases kvs (World lr d); tray_cases kvs (World lr d');
    simpl in *; try done; try congruence.
  subst r r0 rw rw0.
  by destruct (fst (spool_update _ _ d)), (fst (spool_update _ _ d')).
Qed.

Lemma items_store_independent (items : list item) (w w' : world) :
  last_remaining w = last_remaining w' ->
  result (for_each process_item items w) = result (for_each process_item items w')
  /\ last_remaining (final (for_each process_item items w))
     = last_remaining (final (for_each process_item items w'))
  /\ store_calls (emitted (for_each process_item items w))
     = store_calls (emitted (for_each process_item items w')).
Proof.
  revert w w'. induction items as [|it items IH]; intros w w' Hlr; [done|].
  simpl. unfold bind.
  destruct (item_store_independent it w w' Hlr) as (Hr & Hl & Hc).
  destruct (process_item it w) as [[[]|e] w1 ev1],
           (process_item it w') as [[[]|e'] w1' ev1']; simpl in *; try done.
  destruct (IH w1 w1' Hl) as (Hr' & Hl' & Hc').
  by rewrite !store_calls_app, Hc, Hc'.
Qed.

Lemma messages_store_independent (payloads : list (list Byte.byte)) (w w' : world) :
  last_remaining w = last_remaining w' ->
  result (for_each process_message payloads w) = Ret tt
  /\ result (for_each process_message payloads w') = Ret tt
  /\ last_remaining (final (for_each process_message payloads w))
     = last_remaining (final (for_each process_message payloads w'))
  /\ store_calls (emitted (for_each process_message payloads w))
     = store_calls (emitted (for_each process_message payloads w')).
Proof.
  revert w w'. induction payloads as [|m ms IH]; intros w w' Hlr; [done|].
  simpl. unfold bind.
  destruct (process_message_pass m w) as (Hr & Hf & Hc & _).
  destruct (process_message_pass m w') as (Hr' & Hf' & Hc' & _).
  destruct (items_store_independent (message_items m) w w' Hlr) as (_ & Hl & Hcc).
  rewrite Hr, Hr'. simpl.
  destruct (IH (final (process_message m w)) (final (process_message m w')))
    as (IH1 & IH2 & IH3 & IH4); [by rewrite Hf, Hf'|].
  by rewrite !store_calls_app, Hc, Hc', Hcc, IH4.
Qed.

(** C6. When the store raises on the update of a record, the loop body
    still returns normally: the failure is logged, the baseline of the slot
    stays advanced, and nothing propagates. And over any sequence of
    messages the records processed, the tracker and the calls made to the
    store are the same whatever the store answers, so a failure for one
    slot prevents no later dispatch, in the same message or after it. *)
Theorem store_failure_is_contained (kvs : list (string * json)) (w : world)
    (spool_id : Z) (rv wv : json) (p tw : float) :
  ams_mappings !! tray_id_of kvs = Some spool_id ->
  dict_get_none kvs "remain" = Some rv -> py_float rv = Ret p ->
  no_significant_change (last_remaining w !! tray_id_of kvs) p = false ->
  dict_get_none kvs "tray_weight" = Some wv -> py_float wv = Ret tw ->
  fst (spool_update spool_id (remaining_weight_of p tw) (store w)) = false ->
  process_tray (JDict kvs) w
  = Outcome (Ret tt)
      (World (<[tray_id_of kvs := p]> (last_remaining w))
         (snd (spool_update spool_id (remaining_weight_of p tw) (store w))))
      [Log INFO (SlotRemaining (tray_id_of kvs) spool_id p (remaining_weight_of p tw));
       SpoolUpdate (tray_id_of kvs) spool_id (remaining_weight_of p tw) false;
       Log ERROR (FailedUpdate spool_id)]
  /\ forall (payloads : list (list Byte.byte)) (w0 : world) (d : db),
       let o := for_each process_message payloads w0 in
       let o' := for_each process_message payloads (World (last_remaining w0) d) in
       result o = Ret tt /\ result o' = Ret tt
       /\ last_remaining (final o) = last_remaining (final o')
       /\ store_calls (emitted o) = store_calls (emitted o').
Proof.
  intros Hmap Hr Hp Hchg Hw Htw Hfail. split.
  - tray_cases kvs w. subst r rw. by rewrite Hfail.
  - intros payloads w0 d. by apply messages_store_independent.
Qed.

(** *** The baseline, and replaying a message *)






(** *** The reconnect loop *)

Lemma sleeps_app (xs ys : list action) : sleeps (xs ++ ys) = sleeps xs ++ sleeps ys.
Proof. apply omap_app. Qed.

Lemma backoff_succ (k : nat) :
  Z.min (backoff k * 2) max_reconnect_delay = backoff (S k).
Proof.
  unfold backoff, max_reconnect_delay.
  rewrite Nat2Z.inj_succ, Z.pow_succ_r by lia. lia.
Qed.

(** Consecutive failed attempts from the top of the loop: the delays slept
    are the schedule from the delay in force, and the loop is back at a
    new attempt with the next delay. *)
Lemma failures_from (fs : list failure) (k : nat) (w : world) :
  let r := steps (Client true (backoff k) Connecting w) (concat (map failed_attempt fs)) in
  fst r = Client true (backoff (k + length fs)) Connecting w
  /\ sleeps (snd r) = map backoff (seq k (length fs)).
Proof.
  revert k. induction fs as [|f fs IH]; intros k; simpl.
  - by rewrite Nat.add_0_r.
  - rewrite backoff_succ.
    destruct (IH (S k)) as [Hc Hs]. simpl in Hc, Hs.
    rewrite Hc, Hs. split; [f_equal; f_equal; lia|].
    by destruct f.
Qed.

Lemma run_failures (fs : list failure) (w : world) :
  fst (run w (concat (map failed_attempt fs)))
  = Client true (backoff (length fs)) Connecting w
  /\ sleeps (snd (run w (concat (map failed_attempt fs))))
     = map backoff (seq 0 (length fs)).
Proof.
  unfold run, run_start, loop_top. cbn [running reconnect_delay state fst snd].
  destruct (failures_from fs 0 w) as [Hc Hs].
  cbn zeta in Hc, Hs.
  change 5 with (backoff 0) at 1 2.
  by rewrite sleeps_app, Hc, Hs.
Qed.

(** C4 (as amended). The delay starts at 5 and, after each failed attempt
    in a row, the wait uses the delay in force and the delay is then
    doubled, capped at 300: [n] failed connections in a row wait
    [min (5 * 2^k) 300] for [k = 0 .. n-1], four of them wait 5, 10, 20, 40.
    The delay changes at two places only: it becomes 5 as soon as the
    connection to the broker is established, before the subscribe request
    is made (so it is 5 whenever the subscription is reached), and it is
    doubled when a wait ends. *)
Theorem backoff_schedule (w : world) (fs : list failure) (f1 f2 f3 f4 : failure) :
  let r := run w (concat (map failed_attempt fs)) in
  sleeps (snd r) = map backoff (seq 0 (length fs))
  /\ reconnect_delay (fst r) = backoff (length fs)
  /\ backoff 0 = 5
  /\ (forall k, backoff (S k) = Z.min (backoff k * 2) 300)
  /\ sleeps (snd (run w (concat (map failed_attempt [f1; f2; f3; f4])))) = [5; 10; 20; 40]
  /\ (forall c i,
        reconnect_delay (fst (step c i))
        = match i, at_pc c with
          | Connected, Connecting => 5
          | SleepDone, Sleeping => Z.min (reconnect_delay c * 2) 300
          | _, _ => reconnect_delay c
          end)
  /\ (forall c i,
        sleeps (snd (step c i)) = [] \/ sleeps (snd (step c i)) = [reconnect_delay c])
  /\ forall c,
       match at_pc c with
       | Connecting =>
           at_pc (fst (steps c [Connected; Subscribed])) = Receiving
           /\ reconnect_delay (fst (steps c [Connected; Subscribed])) = 5
       | _ => True
       end.
Proof.
  intros r. subst r.
  destruct (run_failures fs w) as [Hc Hs].
  destruct (run_failures [f1; f2; f3; f4] w) as [_ Hs4].
  rewrite Hc, Hs, Hs4.
  split; [done|]. split; [done|]. split; [done|].
  split; [intros k; by rewrite backoff_succ|].
  split; [done|].
  split; [|split].
  - intros [r d pc0 st] i.
    destruct i, pc0; simpl; try done;
      unfold loop_top, on_failure; simpl; by destruct r.
  - intros [r d pc0 st] i.
    destruct i, pc0; simpl; auto;
      unfold loop_top, on_failure; simpl; destruct r; simpl; auto.
  - intros [r d pc0 st]. by destruct pc0.
Qed.



(** ** Further properties of the decoder and of the loops *)

(** X1. A payload that decodes to an object without a "print" entry is
    dropped silently: nothing is logged, nothing is sent to the store, the
    world is unchanged. *)
Theorem payload_without_print_is_silent (payload : list Byte.byte)
    (kvs : list (string * json)) (w : world) :
  json_loads payload = Loaded (JDict kvs) ->
  dict_get kvs "print" = None ->
  process_message payload w = Outcome (Ret tt) w [].
Proof.
  intros Hl Hp. unfold process_message, try_except, process_payload, ams_data_of.
  rewrite Hl. simpl. by rewrite Hp.
Qed.

(** X2. A status report with no AMS data is dropped silently as well: the
    "print" object has no "ams" entry, or its "ams" object has no "ams"
    entry, or that entry is an empty list. *)
Theorem report_without_ams_is_silent (payload : list Byte.byte)
    (kvs print_data : list (string * json)) (w : world) :
  json_loads payload = Loaded (JDict kvs) ->
  dict_get kvs "print" = Some (JDict print_data) ->
  (dict_get print_data "ams" = None
   \/ exists ams, dict_get print_data "ams" = Some (JDict ams)
        /\ (dict_get ams "ams" = None \/ dict_get ams "ams" = Some (JList []))) ->
  process_message payload w = Outcome (Ret tt) w [].
Proof.
  intros Hl Hp Hams.
  unfold process_message, try_except, process_payload, ams_data_of, dict_get_default.
  rewrite Hl. simpl. rewrite Hp. simpl.
  destruct Hams as [Ha|(ams & Ha & [Haa|Haa])]; rewrite Ha; simpl; try by rewrite Haa.
  done.
Qed.

(** X3. A report whose "print" entry is not an object, or whose "ams" entry
    under it is not an object, fails on [.get]: the error is caught, logged
    once at error level, and nothing else happens. *)
Theorem malformed_report_is_logged (payload : list Byte.byte)
    (kvs : list (string * json)) (v : json) (w : world) :
  json_loads payload = Loaded (JDict kvs) ->
  dict_get kvs "print" = Some v ->
  (is_dict v = false
   \/ exists print_data a, v = JDict print_data
        /\ dict_get print_data "ams" = Some a /\ is_dict a = false) ->
  process_message payload w = Outcome (Ret tt) w [Log ERROR ErrorProcessing].
Proof.
  intros Hl Hp Hbad.
  unfold process_message, try_except, process_payload, ams_data_of, dict_get_default.
  rewrite Hl. simpl. rewrite Hp. simpl.
  destruct Hbad as [Hv|(pd & a & -> & Ha & Hd)].
  - by destruct v.
  - rewrite Ha. by destruct a.
Qed.

(** X4. The elements of a tray list that are not objects are skipped: the
    loop does on the list what it does on its objects alone. *)
Theorem non_dict_trays_are_skipped (trays : list json) (w : world) :
  for_each process_tray trays w
  = for_each process_tray (List.filter is_dict trays) w.
Proof.
  revert w. induction trays as [|t trays IH]; intros w; [done|].
  destruct t as [| | | | | |kvs].
  1-6: simpl; unfold bind; simpl; rewrite IH;
    by destruct (for_each process_tray (List.filter is_dict trays) w).
  cbn [List.filter is_dict for_each]. unfold bind.
  destruct (process_tray (JDict kvs) w) as [[[]|e] w1 ev1]; simpl; [|done].
  by rewrite IH.
Qed.

(** X5. Units are processed one after the other on the same tracker: a
    list of units split in two is the first part, then the second part from
    the state the first has left, unless the first part raised. *)
Theorem units_compose (units1 units2 : list json) (w : world) :
  process_ams_data (JList (units1 ++ units2)) w
  = bind (process_ams_data (JList units1))
      (fun _ => process_ams_data (JList units2)) w.
Proof.
  assert (forall us w', process_ams_data (JList us) w' = for_each process_ams_unit us w')
    as Hlist by (intros [|u us] w'; done).
  rewrite Hlist, for_each_app. unfold bind. cbn zeta. rewrite (Hlist units1 w).
  destruct (for_each process_ams_unit units1 w) as [[[]|e] w1 ev1]; simpl; [|done].
  by rewrite Hlist.
Qed.

(** X6. When a record raises (an uncaught error of [float]), the loop
    stops there: what the records before it did stays done, with their
    baselines and their store calls, and the records after it are not
    looked at. *)
Theorem raising_tray_ends_the_loop (before after : list json) (t : json)
    (w : world) (e : exn) :
  result (for_each process_tray before w) = Ret tt ->
  result (process_tray t (final (for_each process_tray before w))) = Raise e ->
  for_each process_tray (before ++ t :: after) w
  = Outcome (Raise e)
      (final (process_tray t (final (for_each process_tray before w))))
      (emitted (for_each process_tray before w)
       ++ emitted (process_tray t (final (for_each process_tray before w)))).
Proof.
  intros Hb Ht. rewrite for_each_app. unfold bind. rewrite Hb. simpl.
  unfold bind. by rewrite Ht.
Qed.

(** ** Further properties of the tracker and of the store calls *)

Lemma item_calls_mapped (it : item) (w : world) (spool_id : Z) (rw : float) :
  In (spool_id, rw) (store_calls (emitted (process_item it w))) ->
  exists s, ams_mappings !! s = Some spool_id.
Proof.
  destruct it as [t|e]; [|done]. simpl.
  run_cases t w; simpl; try done.
  subst r. destruct (fst _); simpl; intros [Heq|[]]; simplify_eq; by eexists.
Qed.

Lemma items_calls_mapped (items : list item) (w : world) (spool_id : Z) (rw : float) :
  In (spool_id, rw) (store_calls (emitted (for_each process_item items w))) ->
  exists s, ams_mappings !! s = Some spool_id.
Proof.
  revert w. induction items as [|it items IH]; intros w; [done|].
  simpl. unfold bind.
  pose proof (item_calls_mapped it w spool_id rw) as Hit.
  destruct (process_item it w) as [[[]|e] w1 ev1]; simpl in *; [|done].
  rewrite store_calls_app, in_app_iff. intros [Hin|Hin]; [auto|by eapply IH].
Qed.

(** X7. The store is only ever called for spools of the slot mapping:
    every call a message makes carries a spool identifier that some slot is
    mapped to. *)
Theorem store_calls_are_mapped (payload : list Byte.byte) (w : world)
    (spool_id : Z) (rw : float) :
  In (spool_id, rw) (store_calls (emitted (process_message payload w))) ->
  exists s, ams_mappings !! s = Some spool_id.
Proof.
  destruct (process_message_pass payload w) as (_ & _ & -> & _).
  apply items_calls_mapped.
Qed.

Lemma item_tracker_grows (it : item) (w : world) :
  dom (last_remaining w) ⊆ dom (last_remaining (final (process_item it w))).
Proof.
  destruct it as [t|e]; [|done]. simpl.
  run_cases t w; simpl; try done; rewrite dom_insert_L; set_solver.
Qed.

Lemma items_tracker_grows (items : list item) (w : world) :
  dom (last_remaining w) ⊆ dom (last_remaining (final (for_each process_item items w))).
Proof.
  revert w. induction items as [|it items IH]; intros w; [done|].
  simpl. unfold bind.
  pose proof (item_tracker_grows it w) as Hit.
  destruct (process_item it w) as [[[]|e] w1 ev1]; simpl in *; [|done].
  specialize (IH w1). set_solver.
Qed.

Lemma step_tracker_grows (c : client) (i : input) :
  dom (last_remaining (state c)) ⊆ dom (last_remaining (state (fst (step c i)))).
Proof.
  destruct c as [r d pc0 st], i, pc0; simpl; try done;
    unfold loop_top, on_failure; simpl; destruct r; simpl; try done.
  destruct (process_message_pass payload st) as (_ & -> & _).
  apply items_tracker_grows.
Qed.

(** X8. A baseline is never removed: over any course of the loop, with any
    messages, failures and reconnections, every slot that has a baseline
    keeps one. *)
Theorem baselines_are_never_removed (c : client) (inputs : list input) :
  dom (last_remaining (state c))
  ⊆ dom (last_remaining (state (fst (steps c inputs)))).
Proof.
  revert c. induction inputs as [|i inputs IH]; intros c; [done|].
  simpl. pose proof (step_tracker_grows c i) as Hs.
  specialize (IH (fst (step c i))). set_solver.
Qed.

(** X9. Readings that stay within 0.5 of the baseline are silent, however
    many there are and even if they drift among themselves: each is
    compared with the last accepted percentage, not with the reading before
    it, so nothing is logged or dispatched and the baseline stays. *)
Theorem jitter_is_silent (s : string) (l : float) (trays : list json) (w : world) :
  last_remaining w !! s = Some l ->
  Forall (within_half s l) trays ->
  for_each process_tray trays w = Outcome (Ret tt) w [].
Proof.
  intros Hl Hall. induction Hall as [|t trays Ht _ IH]; [done|].
  destruct Ht as (kvs & rv & p & -> & <- & Hr & Hp & Hlt).
  cbn [for_each]. unfold bind.
  assert (process_tray (JDict kvs) w = Outcome (Ret tt) w []) as ->.
  { tray_cases kvs w; try done;
      match goal with
      | Hn : no_significant_change _ _ = false |- _ =>
          rewrite Hl in Hn; simpl in Hn; congruence
      end. }
  simpl. by rewrite IH.
Qed.

(** X10. An accepted reading whose total weight is missing uses up the
    change: the baseline has moved, so the same percentage reported again
    with a usable weight is suppressed and the spool is not updated. *)
Theorem missing_weight_loses_the_update (kvs1 kvs2 : list (string * json)) (w : world)
    (spool_id : Z) (rv1 rv2 : json) (p : float) :
  tray_id_of kvs2 = tray_id_of kvs1 ->
  ams_mappings !! tray_id_of kvs1 = Some spool_id ->
  dict_get_none kvs1 "remain" = Some rv1 -> py_float rv1 = Ret p ->
  dict_get_none kvs2 "remain" = Some rv2 -> py_float rv2 = Ret p ->
  is_finite p = true ->
  no_significant_change (last_remaining w !! tray_id_of kvs1) p = false ->
  dict_get_none kvs1 "tray_weight" = None ->
  for_each process_tray [JDict kvs1; JDict kvs2] w
  = Outcome (Ret tt)
      (World (<[tray_id_of kvs1 := p]> (last_remaining w)) (store w))
      [Log WARNING (NoTrayWeight (tray_id_of kvs1))].
Proof.
  intros Hid Hmap Hr1 Hp1 Hr2 Hp2 Hfin Hchg Hw.
  set (w1 := World (<[tray_id_of kvs1 := p]> (last_remaining w)) (store w)).
  assert (process_tray (JDict kvs1) w
          = Outcome (Ret tt) w1 [Log WARNING (NoTrayWeight (tray_id_of kvs1))]) as H1
    by (by tray_cases kvs1 w).
  assert (process_tray (JDict kvs2) w1 = Outcome (Ret tt) w1 []) as H2.
  { pose proof (finite_self_sub p Hfin) as Hself.
    tray_cases kvs2 w1; try done; try congruence;
      match goal with
      | Hn : no_significant_change _ _ = false |- _ =>
          subst w1; simpl in Hn; rewrite Hid, lookup_insert_eq in Hn; simpl in Hn;
          congruence
      end. }
  cbn [for_each]. unfold bind. cbn zeta. rewrite H1. cbn [result final emitted].
  by rewrite H2.
Qed.

(** X11. Records only touch their own slot: a tray list that holds no
    record of slot [s] dispatches nothing for [s] and leaves its baseline
    as it was, whatever it does for the other slots. *)
Theorem other_slots_are_untouched (s : string) (trays : list json) (w : world) :
  Forall (fun t => reports s (Tray t) = false) trays ->
  dispatches s (emitted (for_each process_tray trays w)) = []
  /\ last_remaining (final (for_each process_tray trays w)) !! s
     = last_remaining w !! s.
Proof.
  intros Hall. rewrite for_each_trays.
  apply (items_quiet s (map Tray trays)).
  intros it Hin. left. apply in_map_iff in Hin as (t & <- & Hin).
  rewrite Forall_forall in Hall. apply Hall. by apply list_elem_of_In.
Qed.

(** ** Further properties of the reconnect loop *)

(** X12. The loop sleeps only after a failure: over any course of events,
    it has slept at most once per failed connect, subscribe, session or
    stream; a message stream that just ends is followed by a new attempt at
    once. *)
Theorem sleeps_only_after_failures (w : world) (inputs : list input) :
  (length (sleeps (snd (run w inputs))) <= length (List.filter is_failure inputs))%nat.
Proof.
  unfold run, run_start, loop_top. cbn [running fst snd].
  rewrite sleeps_app. cbn [sleeps omap app length]. simpl.
  generalize (Client true 5 Connecting w). intros c.
  revert c. induction inputs as [|i inputs IH]; intros c; [done|].
  cbn [steps snd]. rewrite sleeps_app, length_app.
  specialize (IH (fst (step c i))).
  assert (length (sleeps (snd (step c i))) <= if is_failure i then 1 else 0)%nat as Hi.
  { destruct c as [r d pc0 st], i, pc0; simpl; try lia;
      unfold loop_top, on_failure; simpl; destruct r; simpl; lia. }
  cbn [List.filter]. destruct (is_failure i); simpl in *; lia.
Qed.

Lemma delays_closed (d : Z) :
  In d delays -> In (Z.min (d * 2) max_reconnect_delay) delays.
Proof.
  unfold delays, max_reconnect_delay. simpl.
  intros [<-|[<-|[<-|[<-|[<-|[<-|[<-|[]]]]]]]]; simpl; auto 10.
Qed.

Lemma steps_delays (c : client) (inputs : list input) :
  In (reconnect_delay c) delays ->
  In (reconnect_delay (fst (steps c inputs))) delays
  /\ Forall (fun d => In d delays) (sleeps (snd (steps c inputs))).
Proof.
  revert c. induction inputs as [|i inputs IH]; intros c Hd; [by split|].
  cbn [steps fst snd].
  assert (In (reconnect_delay (fst (step c i))) delays
          /\ Forall (fun d => In d delays) (sleeps (snd (step c i)))) as [Hd' Hs].
  { pose proof (delays_closed _ Hd) as Hc.
    assert (In 5 delays) as H5 by (by left).
    set (D := delays) in *. clearbody D.
    destruct c as [r d pc0 st], i, pc0; simpl in *; try (by split);
      unfold loop_top, on_failure; simpl; destruct r; simpl;
      split; try done; repeat (constructor; try done). }
  destruct (IH _ Hd') as [IH1 IH2]. split; [done|].
  rewrite sleeps_app. by apply Forall_app.
Qed.

(** X13. The delay only takes the values 5, 10, 20, 40, 80, 160 and 300:
    whatever happens, the delay in force and every delay slept is one of
    them, so no wait is shorter than 5 or longer than 300. *)
Theorem delays_are_bounded (w : world) (inputs : list input) :
  In (reconnect_delay (fst (run w inputs))) delays
  /\ Forall (fun d => In d delays /\ 5 <= d <= 300) (sleeps (snd (run w inputs))).
Proof.
  unfold run, run_start, loop_top. cbn [running fst snd].
  destruct (steps_delays (Client true 5 Connecting w) inputs) as [Hd Hs]; [by left|].
  cbn [reconnect_delay state] in *.
  split; [done|]. rewrite sleeps_app. cbn [sleeps omap app].
  eapply Forall_impl; [exact Hs|]. intros d Hin. split; [done|].
  unfold delays in Hin. simpl in Hin.
  destruct Hin as [<-|[<-|[<-|[<-|[<-|[<-|[<-|[]]]]]]]]; lia.
Qed.

Lemma steps_without_stop (c : client) (inputs : list input) :
  running c = true -> at_pc c <> Stopped ->
  Forall (fun i => is_stop i = false) inputs ->
  running (fst (steps c inputs)) = true /\ at_pc (fst (steps c inputs)) <> Stopped.
Proof.
  revert c. induction inputs as [|i inputs IH]; intros c Hr Hpc Hall; [by split|].
  inversion Hall as [|? ? Hi Hrest]; subst.
  cbn [steps fst]. apply IH; [| |done].
  - destruct c as [r d pc0 st]. simpl in Hr. subst r.
    by destruct i, pc0.
  - destruct c as [r d pc0 st]. simpl in Hr, Hpc. subst r.
    by destruct i, pc0.
Qed.

(** X14. Nothing but [stop] ends the loop: as long as no stop request has
    arrived, every failure of the connection, of the subscription, of a
    session or of the stream is followed by another attempt, and [run] does
    not return. *)
Theorem only_stop_ends_the_loop (w : world) (inputs : list input) :
  Forall (fun i => is_stop i = false) inputs ->
  running (fst (run w inputs)) = true /\ at_pc (fst (run w inputs)) <> Stopped.
Proof.
  intros Hall. unfold run, run_start, loop_top. cbn [running fst snd].
  by apply steps_without_stop.
Qed.



Lemma processed_app (xs ys : list action) :
  processed (xs ++ ys) = processed xs ++ processed ys.
Proof. unfold processed. by rewrite omap_app, concat_app. Qed.

(** X16. While the client is subscribed and running, the messages that
    arrive are processed one by one in arrival order, each from the tracker
    and the store the one before has left; the delay is not touched. *)
Theorem messages_are_processed_in_order (c : client) (payloads : list (list Byte.byte)) :
  running c = true -> at_pc c = Receiving ->
  fst (steps c (map Message payloads))
  = Client true (reconnect_delay c) Receiving
      (final (for_each process_message payloads (state c)))
  /\ processed (snd (steps c (map Message payloads)))
     = emitted (for_each process_message payloads (state c))
  /\ length (snd (steps c (map Message payloads))) = length payloads.
Proof.
  revert c. induction payloads as [|m ms IH]; intros c Hr Hpc.
  { destruct c as [r d pc0 st]. simpl in *. by subst. }
  destruct c as [r d pc0 st]. simpl in Hr, Hpc. subst r pc0.
  cbn [map steps fst snd step at_pc running negb state reconnect_delay].
  destruct (IH (Client true d Receiving (final (process_message m st))))
    as (IH1 & IH2 & IH3); [done|done|].
  cbn [state reconnect_delay] in *.
  destruct (process_message_pass m st) as (Hret & _).
  cbn [for_each]. unfold bind. rewrite Hret. cbn [result final emitted].
  split; [by rewrite IH1|]. split.
  - rewrite processed_app, IH2. unfold processed. simpl. by rewrite app_nil_r.
  - simpl. by rewrite IH3.
Qed.

Lemma step_without_message (c : client) (i : input) :
  is_message i = false -> state (fst (step c i)) = state c.
Proof.
  intros Hi. destruct c as [r d pc0 st], i, pc0; simpl; try done;
    unfold loop_top, on_failure; simpl; by destruct r.
Qed.

(** X17. Losing the connection does not lose the baselines: failures,
    waits, reconnections and stop requests leave the tracker and the store
    exactly as they were; only a message changes them. *)
Theorem reconnection_keeps_the_tracker (c : client) (inputs : list input) :
  Forall (fun i => is_message i = false) inputs ->
  state (fst (steps c inputs)) = state c.
Proof.
  revert c. induction inputs as [|i inputs IH]; intros c Hall; [done|].
  inversion Hall as [|? ? Hi Hrest]; subst.
  cbn [steps fst]. rewrite IH by done. by apply step_without_message.
Qed.

Lemma step_tracker_mapped (c : client) (i : input) :
  dom (last_remaining (state c)) ⊆ dom ams_mappings ->
  dom (last_remaining (state (fst (step c i)))) ⊆ dom ams_mappings.
Proof.
  intros Hc. destruct (is_message i) eqn:Hi.
  - destruct i; try done.
    destruct c as [r d pc0 st], pc0; simpl in *; try done.
    destruct r; simpl; [|unfold loop_top; by simpl].
    destruct (process_message_pass payload st) as (_ & -> & _).
    pose proof (items_tracker_dom (message_items payload) st). set_solver.
  - by rewrite step_without_message.
Qed.

(** X18. A client made by [create_and_run_client] only ever tracks mapped
    slots: it starts with no baseline, and after any course of events every
    slot with a baseline is a key of the slot mapping. *)
Theorem fresh_client_tracks_mapped_slots (d : db) (inputs : list input) :
  dom (last_remaining (state (fst (create_and_run_client d inputs))))
  ⊆ dom ams_mappings.
Proof.
  unfold create_and_run_client, run, run_start, loop_top, init_world.
  cbn [running fst snd reconnect_delay state].
  assert (forall c, dom (last_remaining (state c)) ⊆ dom ams_mappings ->
            dom (last_remaining (state (fst (steps c inputs)))) ⊆ dom ams_mappings)
    as Hinv.
  { induction inputs as [|i inputs IH]; intros c Hc; [done|].
    cbn [steps fst]. apply IH. by apply step_tracker_mapped. }
  apply Hinv. simpl. set_solver.
Qed.

(** ** The topic and the slot identifiers *)

Lemma length_append (s t : string) :
  String.length (s ++ t)%string = (String.length s + String.length t)%nat.
Proof.
  induction s as [|a s IH]; [done|].
  change (String.length (String a (s ++ t)) = S (String.length s + String.length t)).
  simpl. by rewrite IH.
Qed.

Lemma append_inj_l (p s1 s2 : string) :
  (p ++ s1)%string = (p ++ s2)%string -> s1 = s2.
Proof.
  induction p as [|a p IH]; [done|].
  change (String a (p ++ s1) = String a (p ++ s2) -> s1 = s2).
  intros Heq. injection Heq as Heq. by apply IH.
Qed.

Lemma append_inj_r (s1 s2 t : string) :
  (s1 ++ t)%string = (s2 ++ t)%string -> s1 = s2.
Proof.
  intros Heq.
  assert (String.length s1 = String.length s2) as Hlen.
  { apply (f_equal String.length) in Heq. rewrite !length_append in Heq. lia. }
  revert s2 Heq Hlen. induction s1 as [|a s1 IH]; intros [|b s2] Heq Hlen;
    try done.
  change (String a (s1 ++ t) = String b (s2 ++ t)) in Heq.
  injection Heq as -> Heq. f_equal. apply IH; [done|]. simpl in Hlen. lia.
Qed.

(** X19. The topic names the printer: two clients subscribe to the same
    topic only if they were given the same serial number. *)
Theorem topic_names_the_device (serial1 serial2 : string) :
  topic serial1 = topic serial2 -> serial1 = serial2.
Proof.
  unfold topic. intros Heq.
  apply append_inj_l in Heq. by apply append_inj_r in Heq.
Qed.

(** X20. Integer identifiers are told apart: two records whose "id" are
    different integers are different slots, since [str] of an integer is
    its decimal writing. *)
Theorem integer_ids_are_distinct_slots (z1 z2 : Z) (kvs1 kvs2 : list (string * json)) :
  dict_get kvs1 "id" = Some (JInt z1) ->
  dict_get kvs2 "id" = Some (JInt z2) ->
  tray_id_of kvs1 = tray_id_of kvs2 ->
  z1 = z2.
Proof.
  intros H1 H2. unfold tray_id_of, dict_get_default. rewrite H1, H2. simpl.
  intros Heq. apply DecimalZ.to_int_inj.
  apply (f_equal NilZero.int_of_string) in Heq.
  rewrite !int_of_string_of_int in Heq. congruence.
Qed.

End Properties.

(** * The properties on concrete records and messages *)

(** C1, as stated, fails on a NaN percentage: the baseline is 50, the
    distance to it is not at least 0.5, and the update is dispatched. *)
Lemma nan_percent_is_dispatched :
  dispatches "0"
    (emitted (process_tray (E := demo) (tray (JStr "0") (JFloat nan) (JInt 1000))
                (demo_world {[ "0"%string := 50%float ]})))
  = [SpoolUpdate "0" 1 nan true]
  /\ PrimFloat.leb 0.5 (abs (PrimFloat.sub nan 50)) = false
  /\ PrimFloat.ltb (abs (PrimFloat.sub nan 50)) 0.5 = false.
Proof. by vm_compute. Qed.

(** A record is only judged when the loop gets to it: a unit whose "tray"
    is [None] raises [TypeError], the message is dropped there, and the
    record of the next unit is never looked at. *)
Example later_unit_is_not_reached :
  let doc :=
    JDict [("print"%string,
            JDict [("ams"%string,
                    JDict [("ams"%string,
                            JList [JDict [("tray"%string, JNull)];
                                   JDict [("tray"%string,
                                           JList [tray (JStr "0") (JInt 60) (JInt 1000)])]])])])] in
  process_payload (E := demo) doc (demo_world ∅)
  = Outcome (Raise TypeError) (demo_world ∅) []
  /\ store_calls
       (emitted (process_tray (E := demo) (tray (JStr "0") (JInt 60) (JInt 1000))
                   (demo_world ∅)))
     = [(1, 600%float)].
Proof. by vm_compute. Qed.

(** C2, as stated, fails: a percentage that is not a number is logged and
    the tracker is left as it was, with no entry made and none changed. *)
Lemma invalid_remain_keeps_tracker :
  let bad := tray (JStr "0") (JStr "abc") (JInt 1000) in
  last_remaining (final (process_tray (E := demo) bad (demo_world ∅))) !! "0"%string = None
  /\ last_remaining
       (final (process_tray (E := demo) bad (demo_world {[ "0"%string := 50%float ]})))
     !! "0"%string = Some 50%float
  /\ emitted (process_tray (E := demo) bad (demo_world ∅))
     = [Log WARNING (InvalidRemain "0" (JStr "abc"))].
Proof. by vm_compute. Qed.

Lemma invalid_remain_only_warns_demo :
  process_tray (E := demo) (tray (JStr "0") (JStr "abc") (JInt 1000))
    (demo_world {[ "0"%string := 50%float ]})
  = Outcome (Ret tt) (demo_world {[ "0"%string := 50%float ]})
      [Log WARNING (InvalidRemain "0" (JStr "abc"))].
Proof.
  refine (invalid_remain_only_warns (E := demo)
            (tray_fields (JStr "0") (JStr "abc") (JInt 1000)) _ 1 (JStr "abc") ValueError
            _ _ _ _);
    by vm_compute.
Defined.



(** C4, as stated, fails when the connection is made and the subscribe
    request fails: no subscription was reached after the two failures, and
    the third wait is 5 again, not 20. *)
Lemma subscribe_failure_waits_five :
  sleeps (snd (run (E := demo) (demo_world ∅)
                 [ConnectFailed MqttError; SleepDone;
                  ConnectFailed MqttError; SleepDone;
                  Connected; SubscribeFailed MqttError]))
  = [5; 10; 5]
  /\ at_pc (fst (run (E := demo) (demo_world ∅)
                   [ConnectFailed MqttError; SleepDone;
                    ConnectFailed MqttError; SleepDone;
                    Connected])) = Subscribing.
Proof. by vm_compute. Qed.

Lemma malformed_payload_is_discarded_demo :
  let m := list_byte_of_string "{ not json" in
  let w := demo_world {[ "0"%string := 50%float ]} in
  process_message (E := demo) m w = Outcome (Ret tt) w [Log WARNING JSONDecodeFailed]
  /\ final (process_message (E := demo) m w) = w
  /\ store_calls (emitted (process_message (E := demo) m w)) = [].
Proof.
  intros m w. split; [by vm_compute|].
  assert (forall j, json_loads (Env := demo) m <> Loaded j) as Hbad
    by (intros j; vm_compute; discriminate).
  destruct (malformed_payload_is_discarded (E := demo) m w Hbad) as (_ & Hf & Hc & _).
  by split.
Defined.

Lemma store_failure_is_contained_demo :
  let m := list_byte_of_string "slot 1, then slot 0" in
  process_tray (E := demo) (tray (JStr "1") (JInt 40) (JInt 1000)) (demo_world ∅)
  = Outcome (Ret tt) (demo_world {[ "1"%string := 40%float ]})
      [Log INFO (SlotRemaining "1" 2 40 400); SpoolUpdate "1" 2 400 false;
       Log ERROR (FailedUpdate 2)]
  /\ emitted (process_message (E := demo) m (demo_world ∅))
     = [Log INFO (SlotRemaining "1" 2 40 400); SpoolUpdate "1" 2 400 false;
        Log ERROR (FailedUpdate 2);
        Log INFO (SlotRemaining "0" 1 60 600); SpoolUpdate "0" 1 600 true;
        Log INFO (UpdatedSpool 1 600)].
Proof.
  intros m. split; [|by vm_compute].
  refine (proj1 (store_failure_is_contained (E := demo)
                   (tray_fields (JStr "1") (JInt 40) (JInt 1000)) (demo_world ∅)
                   2 (JInt 40) (JInt 1000) 40 1000 _ _ _ _ _ _ _));
    by vm_compute.
Defined.


Lemma unmapped_slot_is_ignored_demo :
  let m := list_byte_of_string "slot 3, then slot 0" in
  let o := process_message (E := demo) m (demo_world ∅) in
  dispatches "3" (emitted o) = []
  /\ last_remaining (final o) !! "3"%string = None
  /\ store_calls (emitted o) = [(1, 600%float)].
Proof.
  intros m o. subst o.
  destruct (unmapped_slot_is_ignored (E := demo) "3" m (demo_world ∅))
    as (_ & Hd & Hl & _); [by vm_compute|].
  split; [done|]. split; [by rewrite Hl|by vm_compute].
Defined.

Lemma weight_is_exact_demo :
  store_calls
    (emitted (process_tray (E := demo) (tray (JStr "0") (JInt 60) (JStr "1000"))
                (demo_world ∅)))
  = [(1, 600%float)].
Proof.
  refine (proj1 (weight_is_exact (E := demo)
                   (tray_fields (JStr "0") (JInt 60) (JStr "1000")) (demo_world ∅)
                   1 (JInt 60) (JStr "1000") 60 1000 _ _ _ _ _ _));
    by vm_compute.
Defined.


(** * The further properties on concrete inputs *)

Lemma payload_without_print_is_silent_demo :
  let w := @World demo_quiet {[ "0"%string := 50%float ]} [1] in
  process_message (E := demo_quiet) (list_byte_of_string "no print entry") w
  = Outcome (Ret tt) w [].
Proof.
  intros w.
  by refine (payload_without_print_is_silent (E := demo_quiet) _
               [("info"%string, JStr "x")] w _ _).
Defined.

Lemma report_without_ams_is_silent_demo :
  let w := @World demo_quiet {[ "0"%string := 50%float ]} [1] in
  process_message (E := demo_quiet) (list_byte_of_string "print without ams") w
  = Outcome (Ret tt) w [].
Proof.
  intros w.
  refine (report_without_ams_is_silent (E := demo_quiet) _
            [("print"%string, JDict [("command"%string, JStr "push_status")])]
            [("command"%string, JStr "push_status")] w _ _ _); try done.
  by left.
Defined.

Lemma malformed_report_is_logged_demo :
  let w := @World demo_quiet {[ "0"%string := 50%float ]} [1] in
  process_message (E := demo_quiet) (list_byte_of_string "print is a string") w
  = Outcome (Ret tt) w [Log ERROR ErrorProcessing].
Proof.
  intros w.
  refine (malformed_report_is_logged (E := demo_quiet) _
            [("print"%string, JStr "x")] (JStr "x") w _ _ _); try done.
  by left.
Defined.

Lemma raising_tray_ends_the_loop_demo :
  let o := for_each (E := demo) process_tray
             ([tray (JStr "0") (JInt 60) (JInt 1000)]
              ++ tray (JStr "1") (JInt (10 ^ 400)) (JInt 1000)
                 :: [tray (JStr "0") (JInt 10) (JInt 1000)])
             (demo_world ∅) in
  result o = Raise OverflowError
  /\ store_calls (emitted o) = [(1, 600%float)]
  /\ last_remaining (final o) !! "0"%string = Some 60%float.
Proof.
  intros o. subst o.
  rewrite (raising_tray_ends_the_loop (E := demo) _ _ _ _ OverflowError);
    by vm_compute.
Defined.

Lemma store_calls_are_mapped_demo :
  exists s, ams_mappings (Env := demo) !! s = Some 1.
Proof.
  apply (store_calls_are_mapped (E := demo)
           (list_byte_of_string "slot 0 at 60 percent of 1000") (demo_world ∅) 1 600).
  vm_compute. by left.
Defined.

Lemma jitter_is_silent_demo :
  let w := demo_world {[ "0"%string := 50%float ]} in
  for_each (E := demo) process_tray
    [tray (JStr "0") (JFloat 50.25) (JInt 1000);
     tray (JStr "0") (JFloat 49.75) (JInt 1000);
     tray (JStr "0") (JFloat 50.375) (JInt 1000)] w
  = Outcome (Ret tt) w [].
Proof.
  intros w.
  apply (jitter_is_silent (E := demo) "0" 50); [done|].
  repeat constructor.
  - by exists (tray_fields (JStr "0") (JFloat 50.25) (JInt 1000)), (JFloat 50.25), 50.25%float.
  - by exists (tray_fields (JStr "0") (JFloat 49.75) (JInt 1000)), (JFloat 49.75), 49.75%float.
  - by exists (tray_fields (JStr "0") (JFloat 50.375) (JInt 1000)), (JFloat 50.375), 50.375%float.
Defined.

Lemma missing_weight_loses_the_update_demo :
  store_calls
    (emitted (for_each (E := demo) process_tray
                [JDict [("id"%string, JStr "0"); ("remain"%string, JInt 60)];
                 tray (JStr "0") (JInt 60) (JStr "1000")]
                (demo_world ∅)))
  = [].
Proof.
  rewrite (missing_weight_loses_the_update (E := demo)
             [("id"%string, JStr "0"); ("remain"%string, JInt 60)]
             (tray_fields (JStr "0") (JInt 60) (JStr "1000")) (demo_world ∅)
             1 (JInt 60) (JInt 60) 60); by vm_compute.
Defined.

Lemma other_slots_are_untouched_demo :
  let w := demo_world {[ "1"%string := 40%float ]} in
  let o := for_each (E := demo) process_tray
             [tray (JStr "0") (JInt 60) (JInt 1000); JNull] w in
  dispatches "1" (emitted o) = []
  /\ last_remaining (final o) !! "1"%string = Some 40%float.
Proof.
  intros w o. subst o.
  destruct (other_slots_are_untouched (E := demo) "1"
              [tray (JStr "0") (JInt 60) (JInt 1000); JNull] w) as [Hd Hl].
  { by repeat constructor. }
  split; [done|]. by rewrite Hl.
Defined.

Lemma only_stop_ends_the_loop_demo :
  running (fst (run (E := demo) (demo_world ∅)
                  [ConnectFailed MqttError; SleepDone; Connected;
                   SubscribeFailed OtherException; SleepDone; Connected; Subscribed;
                   StreamFailed MqttError; SleepDone])) = true.
Proof.
  refine (proj1 (only_stop_ends_the_loop (E := demo) (demo_world ∅) _ _)).
  by repeat constructor.
Defined.


Lemma messages_are_processed_in_order_demo :
  let c := fst (run (E := demo) (demo_world ∅) [Connected; Subscribed]) in
  store_calls
    (processed
       (snd (steps c
               (map Message
                  [list_byte_of_string "slot 0 at 60 percent of 1000";
                   list_byte_of_string "slot 0 in two units, at 80 and at 30"]))))
  = [(1, 600%float); (1, 800%float); (1, 300%float)].
Proof.
  intros c.
  destruct (messages_are_processed_in_order (E := demo) c
              [list_byte_of_string "slot 0 at 60 percent of 1000";
               list_byte_of_string "slot 0 in two units, at 80 and at 30"])
    as (_ & -> & _); by vm_compute.
Defined.

Lemma reconnection_keeps_the_tracker_demo :
  let c := Client (E := demo) true 5 Receiving (demo_world {[ "0"%string := 60%float ]}) in
  state (fst (steps c [StreamFailed MqttError; SleepDone; ConnectFailed MqttError;
                       SleepDone; Connected; Subscribed]))
  = demo_world {[ "0"%string := 60%float ]}.
Proof.
  intros c.
  rewrite (reconnection_keeps_the_tracker (E := demo) c); [done|].
  by repeat constructor.
Defined.

Lemma topic_names_the_device_demo : "01S00A123"%string = "01S00A123"%string.
Proof. by apply topic_names_the_device. Defined.

Lemma integer_ids_are_distinct_slots_demo : 2 = 2.
Proof.
  by apply (integer_ids_are_distinct_slots (E := demo) 2 2
              (tray_fields (JInt 2) (JInt 60) (JInt 1000))
              (tray_fields (JInt 2) (JInt 10) (JInt 500))).
Defined.
